(** * Speech-enabled space chatbot: the retrieval core of [project.py]

    A shallow embedding of [preprocess], [get_most_relevant_sentence] and
    [chatbot], and the properties the design document states about them;
    then [transcribe_speech] and the session state of [main], with further
    properties read off the code.

    Modelling choices.
    - A Python [str] is a [string] of the standard library.  The built-ins
      the program calls ([lower], [strip], [split], [re.sub], [capitalize],
      [in]) are modelled on the ASCII range, where the knowledge base lives:
      a character above code 127 has no case and is not white space.
    - White space is what [str.isspace] and the pattern [\s] accept below
      code 128: codes 9 to 13 and 28 to 32.
    - The score [matches / len(query_words)] is the exact rational.  Python
      rounds it to a double; rounding is monotone and two quotients with the
      same denominator [n], or a quotient and the literal [0.2], stay
      distinct doubles as long as [5 * n < 2^52], so every comparison of the
      program has the outcome computed here. *)

From Stdlib Require Import List String Ascii Bool Arith ZArith QArith Lia Permutation.
Import ListNotations.

Close Scope Q_scope.
Open Scope string_scope.
Open Scope list_scope.

(* ================================================================== *)
(** ** Characters *)

Module Char.

Definition code (c : ascii) : nat := nat_of_ascii c.

Definition between (lo hi : nat) (c : ascii) : bool :=
  Nat.leb lo (code c) && Nat.leb (code c) hi.

(** [A-Z] *)
Definition isupper : ascii -> bool := between 65 90.
(** [a-z] *)
Definition islower : ascii -> bool := between 97 122.
(** [0-9] *)
Definition isdigit : ascii -> bool := between 48 57.
(** [\s]: tab, line feed, vertical tab, form feed, carriage return, the
    four separators 28..31 and the space. *)
Definition isspace (c : ascii) : bool := between 9 13 c || between 28 32 c.

Definition lower (c : ascii) : ascii :=
  if isupper c then ascii_of_nat (code c + 32) else c.

Definition upper (c : ascii) : ascii :=
  if islower c then ascii_of_nat (code c - 32) else c.

(** The complement of the class [[^a-z0-9\s]]: the characters [re.sub]
    leaves in place. *)
Definition kept (c : ascii) : bool := islower c || isdigit c || isspace c.

End Char.

(* ================================================================== *)
(** ** String built-ins *)

Module Str.

Fixpoint map (f : ascii -> ascii) (s : string) : string :=
  match s with
  | EmptyString => EmptyString
  | String c s' => String (f c) (map f s')
  end.

Fixpoint filter (p : ascii -> bool) (s : string) : string :=
  match s with
  | EmptyString => EmptyString
  | String c s' => if p c then String c (filter p s') else filter p s'
  end.

Fixpoint all (p : ascii -> bool) (s : string) : bool :=
  match s with
  | EmptyString => true
  | String c s' => p c && all p s'
  end.

Definition is_empty (s : string) : bool :=
  match s with EmptyString => true | String _ _ => false end.

(** [s.lower()] *)
Definition lower : string -> string := map Char.lower.

(** [s.lstrip()], [s.rstrip()], [s.strip()] *)
Fixpoint lstrip (s : string) : string :=
  match s with
  | EmptyString => EmptyString
  | String c s' => if Char.isspace c then lstrip s' else s
  end.

Fixpoint rstrip (s : string) : string :=
  match s with
  | EmptyString => EmptyString
  | String c s' =>
      match rstrip s' with
      | EmptyString => if Char.isspace c then EmptyString else String c EmptyString
      | String _ _ as r => String c r
      end
  end.

Definition strip (s : string) : string := rstrip (lstrip s).

(** Cut [s] at every character that satisfies [delim]; the pieces between
    two cuts are kept even when empty, so the result has one piece more
    than [s] has delimiters. *)
Fixpoint pieces (delim : ascii -> bool) (s : string) : list string :=
  match s with
  | EmptyString => [EmptyString]
  | String c s' =>
      if delim c then EmptyString :: pieces delim s'
      else match pieces delim s' with
           | [] => [String c EmptyString]
           | w :: ws => String c w :: ws
           end
  end.

(** [s.split(sep)] for a one-character separator. *)
Definition split_on (sep : ascii) (s : string) : list string :=
  pieces (Ascii.eqb sep) s.

(** [s.split()]: runs of white space separate the words and no word is
    empty. *)
Definition split (s : string) : list string :=
  List.filter (fun w => negb (is_empty w)) (pieces Char.isspace s).

(** [re.sub(r'[^a-z0-9\s]', '', s)] *)
Definition re_sub_special (s : string) : string := filter Char.kept s.

(** [s.capitalize()]: the first character in upper case, all the others
    in lower case. *)
Definition capitalize (s : string) : string :=
  match s with
  | EmptyString => EmptyString
  | String c s' => String (Char.upper c) (lower s')
  end.

(** [w in ws] for a list of strings. *)
Definition mem (w : string) (ws : list string) : bool :=
  existsb (String.eqb w) ws.

End Str.

(* ================================================================== *)
(** ** The knowledge base *)

Definition SPACE_TEXT : string := "
The Solar System is the gravitationally bound system of the Sun and the objects that orbit it.
The Sun is a star at the center of our Solar System.
Earth is the third planet from the Sun and the only place we know that has life.
Mars is called the Red Planet because of its reddish appearance.
Jupiter is the largest planet in our Solar System.
Saturn is famous for its beautiful rings made of ice and rock.
The Moon orbits around Earth and takes about 27 days to complete one orbit.
Astronauts are people who travel to space.
The International Space Station is a large spacecraft that orbits Earth.
Rockets are used to launch spacecraft into space.
The first human in space was Yuri Gagarin in 1961.
Neil Armstrong was the first person to walk on the Moon in 1969.
Venus is the hottest planet in our Solar System.
Mercury is the smallest planet and closest to the Sun.
Neptune is the farthest planet from the Sun.
Uranus rotates on its side compared to other planets.
A galaxy is a huge collection of stars, dust, and gas held together by gravity.
The Milky Way is the galaxy that contains our Solar System.
Black holes are regions in space where gravity is so strong that nothing can escape.
Stars are giant balls of hot gas that produce light and heat.
Comets are icy objects that leave bright trails when they pass near the Sun.
A telescope is an instrument used to observe distant objects in space.
The universe is everything that exists including all matter and energy.
Space exploration helps us understand our place in the cosmos.
Satellites orbit Earth and help with communication and navigation.
Asteroids are rocky objects that orbit the Sun.
The atmosphere protects Earth from harmful radiation.
Gravity is the force that pulls objects toward each other.
Light from the Sun takes about 8 minutes to reach Earth.
A lunar eclipse occurs when Earth passes between the Sun and Moon.
".

(* ================================================================== *)
(** ** [preprocess] *)

(** The body of the loop over [sentences]: the cleaned sentences of the
  segments, in order. *)
Fixpoint clean_sentences (sentences : list string) : list string :=
match sentences with
| [] => []
| sentence :: rest =>
    let sentence := Str.strip sentence in
    if negb (Str.is_empty sentence)
    then Str.re_sub_special sentence :: clean_sentences rest
    else clean_sentences rest
end.

Definition preprocess (text : string) : list string :=
let text := Str.lower text in
let sentences := Str.split_on "." text in
clean_sentences sentences.

(* ================================================================== *)
(** ** [get_most_relevant_sentence] *)

(** Lines 103-105: the words of the query. *)
Definition query_words (query : string) : list string :=
  let query := Str.lower query in
  let query := Str.re_sub_special query in
  Str.split query.

(** Lines 115-118: the inner loop over the words of the query. *)
Definition count_matches (query_words sentence_words : list string) : nat :=
  fold_left
    (fun matches word => if Str.mem word sentence_words then S matches else matches)
    query_words 0.

(** Lines 112-124: the score of one sentence.  The division is reached
    only behind the guard [len(query_words) > 0]. *)
Definition sentence_score (query_words : list string) (sentence : string) : Q :=
  let sentence_words := Str.split sentence in
  let matches := count_matches query_words sentence_words in
  if Nat.ltb 0 (List.length query_words)
  then (Z.of_nat matches # Pos.of_nat (List.length query_words))%Q
  else 0%Q.

(** [x > y] on scores. *)
Definition Qgt_bool (x y : Q) : bool := negb (Qle_bool x y).

(** Lines 127-129: one turn of the outer loop on the pair
    [(best_sentence, best_score)]. *)
Definition keep_best (query_words : list string) (best : string * Q) (sentence : string)
  : string * Q :=
  let '(best_sentence, best_score) := best in
  let score := sentence_score query_words sentence in
  if Qgt_bool score best_score then (sentence, score) else (best_sentence, best_score).

Definition get_most_relevant_sentence (query : string) (sentences : list string)
  : string * Q :=
  fold_left (keep_best (query_words query)) sentences (EmptyString, 0%Q).

(* ================================================================== *)
(** ** [chatbot] *)

Definition prompt_message : string := "Please provide a question!".

Definition fallback_message : string :=
  "I'm sorry, I don't have information about that. Try asking about planets, the Sun, Moon, astronauts, or space exploration!".

(** The literal [0.2]. *)
Definition threshold : Q := (2 # 10)%Q.

(** [not user_input or user_input.strip() == ""] *)
Definition no_question (user_input : string) : bool :=
  Str.is_empty user_input || String.eqb (Str.strip user_input) EmptyString.

Definition chatbot (user_input : string) (sentences : list string) (input_type : string)
  : string :=
  if no_question user_input then prompt_message
  else
    let '(relevant_sentence, score) := get_most_relevant_sentence user_input sentences in
    if Qgt_bool score threshold
    then (Str.capitalize relevant_sentence ++ ".")%string
    else fallback_message.

(* ================================================================== *)
(** ** The same code with its effects written out

    What a call can do besides returning: raise (the only operation of the
    core that can is the division) and call the matcher.  A run is the
    outcome together with the calls made, oldest first. *)

Module Run.

Inductive error : Type := ZeroDivisionError.

Inductive outcome (A : Type) : Type :=
| Returns (a : A)
| Raises (e : error).
Arguments Returns {A} a.
Arguments Raises {A} e.

Inductive event : Type :=
| Matcher_called (query : string) (sentences : list string).

Definition run (A : Type) : Type := (outcome A * list event)%type.

Definition ret {A} (a : A) : run A := (Returns a, []).

Definition raise {A} (e : error) : run A := (Raises e, []).

Definition emit (ev : event) : run unit := (Returns tt, [ev]).

Definition bind {A B} (m : run A) (k : A -> run B) : run B :=
  match m with
  | (Returns a, t) => let '(o, t') := k a in (o, t ++ t')
  | (Raises e, t) => (Raises e, t)
  end.

Notation "x <- m ;; k" := (bind m (fun x => k))
  (at level 61, m at next level, right associativity).
Notation "m ;;; k" := (bind m (fun _ => k))
  (at level 61, right associativity).

(** [a / b] on integers. *)
Definition true_div (a b : nat) : run Q :=
  if Nat.eqb b 0 then raise ZeroDivisionError
  else ret (Z.of_nat a # Pos.of_nat b)%Q.

Definition sentence_score (query_words : list string) (sentence : string) : run Q :=
  let sentence_words := Str.split sentence in
  let matches := count_matches query_words sentence_words in
  if Nat.ltb 0 (List.length query_words)
  then true_div matches (List.length query_words)
  else ret 0%Q.

Fixpoint for_sentences (query_words : list string) (sentences : list string)
  (best : string * Q) : run (string * Q) :=
  match sentences with
  | [] => ret best
  | sentence :: rest =>
      score <- sentence_score query_words sentence ;;
      let '(best_sentence, best_score) := best in
      for_sentences query_words rest
        (if Qgt_bool score best_score then (sentence, score)
         else (best_sentence, best_score))
  end.

Definition get_most_relevant_sentence (query : string) (sentences : list string)
  : run (string * Q) :=
  emit (Matcher_called query sentences) ;;;
  for_sentences (query_words query) sentences (EmptyString, 0%Q).

Definition chatbot (user_input : string) (sentences : list string) (input_type : string)
  : run string :=
  if no_question user_input then ret prompt_message
  else
    best <- get_most_relevant_sentence user_input sentences ;;
    let '(relevant_sentence, score) := best in
    if Qgt_bool score threshold
    then ret (Str.capitalize relevant_sentence ++ ".")%string
    else ret fallback_message.

End Run.

(* ================================================================== *)
(** ** The words of the design document, for comparison *)

(** "increment a match counter by 1 if that token is present anywhere among
    the candidate's tokens": the number of positions of the query whose
    token occurs in the sentence. *)
Definition spec_match_counter (tokens : list string) (sentence : string) : nat :=
  List.length
    (List.filter
       (fun t => if in_dec string_dec t (Str.split sentence) then true else false)
       tokens).

(** "score = matchCounter / totalQueryTokens if the query has at least one
    token, else score = 0". *)
Definition spec_score (tokens : list string) (sentence : string) : Q :=
  match tokens with
  | [] => 0%Q
  | _ :: _ => (Z.of_nat (spec_match_counter tokens sentence) # Pos.of_nat (List.length tokens))%Q
  end.

(** "the maximum over corpus sentences", 0 for the empty corpus. *)
Definition spec_is_best_score (tokens : list string) (corpus : list string) (r : Q) : Prop :=
  (forall s, In s corpus -> (spec_score tokens s <= r)%Q) /\
  (corpus = [] -> r = 0%Q) /\
  (corpus <> [] -> exists s, In s corpus /\ (r == spec_score tokens s)%Q).

(** "its first character upper-cased ... rest of the string ... left alone
    in case". *)
Definition spec_upper_first (s : string) : string :=
  match s with
  | EmptyString => EmptyString
  | String c s' => String (Char.upper c) s'
  end.

(** A query token after normalization: not empty, and made of lowercase
    letters and digits only. *)
Definition spec_token (t : string) : bool :=
  negb (Str.is_empty t) && Str.all (fun c => Char.islower c || Char.isdigit c) t.

(** "lowercase a-z, digits 0-9, and single spaces". *)
Definition spec_sentence_char (c : ascii) : bool :=
  Char.islower c || Char.isdigit c || Ascii.eqb c " ".

(** "empty or contains only whitespace". *)
Definition blank (query : string) : bool := Str.all Char.isspace query.

(** The score of a sentence that comes before [sentence] in the corpus and
    the sentence itself: [corpus = before ++ sentence :: after]. *)
Definition earliest_with (tokens : list string) (corpus : list string)
  (sentence : string) (r : Q) : Prop :=
  exists before after,
    corpus = before ++ sentence :: after /\
    (forall s, In s before -> (sentence_score tokens s < r)%Q) /\
    (forall s, In s after -> (sentence_score tokens s <= r)%Q).

(** "no two spaces in a row". *)
Fixpoint spec_single_spaced (s : string) : bool :=
  match s with
  | EmptyString => true
  | String c s' =>
      match s' with
      | String d _ => negb (Ascii.eqb c " " && Ascii.eqb d " ") && spec_single_spaced s'
      | EmptyString => true
      end
  end.

(** The corpus invariant of the data model: "no empty strings; each
    sentence contains only lowercase alphanumeric tokens and single
    spaces". *)
Definition spec_clean_sentence (s : string) : bool :=
  negb (Str.is_empty s) && Str.all spec_sentence_char s && spec_single_spaced s.

(** The string [a<TAB>b]. *)
Definition a_tab_b : string := String "a" (String "009" (String "b" EmptyString)).

(* ================================================================== *)
(** ** [transcribe_speech]

    The body of the [try] talks to the microphone and to the recognition
    service.  What it comes to is one of six things: the text the service
    heard, or an exception of one of the classes the handlers tell apart,
    in the order of the [except] clauses.  [e] is [str(e)].  Exceptions
    outside the class [Exception] are not caught and are not part of the
    model. *)

Inductive recognition : Type :=
| Recognized (text : string)
| WaitTimeoutError
| UnknownValueError
| RequestError (e : string)
| OSError (e : string)
| Exception (e : string).

Definition transcribe_speech (heard : recognition) : option string * option string :=
  match heard with
  | Recognized text => (Some text, None)
  | WaitTimeoutError =>
      (None, Some "⏱️ No speech detected. Please try again.")
  | UnknownValueError =>
      (None, Some "❌ Could not understand the audio. Please speak clearly.")
  | RequestError e =>
      (None, Some ("❌ Error with speech recognition service: " ++ e)%string)
  | OSError e =>
      (None, Some ("❌ Microphone error: " ++ e
                   ++ ". Make sure your microphone is connected.")%string)
  | Exception e =>
      (None, Some ("❌ Unexpected error: " ++ e)%string)
  end.

(** The truth value of a string or [None] in a condition. *)
Definition truthy (x : option string) : bool :=
  match x with
  | Some s => negb (Str.is_empty s)
  | None => false
  end.

(* ================================================================== *)
(** ** [main]: the session state

    One run of the script reads the widgets, handles the text button, then
    the voice button, shows the history and handles the button that clears
    it.  The state that lives from run to run is
    [st.session_state.chat_history].  The static text of the page is left
    out. *)

(** An entry of the history: the dictionary with the keys ['type'],
    ['question'] and ['response']. *)
Record chat : Type := {
  type : string;
  question : string;
  response : string
}.

(** What the widgets return in one run, and what the recognition comes to
    if the voice button starts it. *)
Record widgets : Type := {
  text_input : string;
  text_button : bool;
  voice_button : bool;
  heard : recognition;
  clear_button : bool
}.

(** Lines 311-330. *)
Definition handle_text (w : widgets) (sentences : list string) (chat_history : list chat)
  : list chat :=
  if text_button w then
    if negb (Str.is_empty (text_input w)) then
      let response := chatbot (text_input w) sentences "text" in
      chat_history
        ++ [{| type := "text"; question := text_input w; response := response |}]
    else chat_history
  else chat_history.

(** Lines 333-367. *)
Definition handle_voice (w : widgets) (sentences : list string) (chat_history : list chat)
  : list chat :=
  if voice_button w then
    let '(transcribed_text, error) := transcribe_speech (heard w) in
    if truthy error then chat_history
    else if truthy transcribed_text then
      match transcribed_text with
      | Some text =>
          let response := chatbot text sentences "voice" in
          chat_history ++ [{| type := "voice"; question := text; response := response |}]
      | None => chat_history
      end
    else chat_history
  else chat_history.

(** Lines 370 and 380-382: the button exists only when there is a history. *)
Definition handle_clear (w : widgets) (chat_history : list chat) : list chat :=
  match chat_history with
  | [] => chat_history
  | _ :: _ => if clear_button w then [] else chat_history
  end.

(** One run: from the session state before it ([None] when the key is not
    there yet) to the history after it. *)
Definition main (w : widgets) (session_state : option (list chat)) : list chat :=
  let chat_history := match session_state with Some h => h | None => [] end in
  let sentences := preprocess SPACE_TEXT in
  handle_clear w (handle_voice w sentences (handle_text w sentences chat_history)).

(** The runs of a session, from a fresh one. *)
Definition session (runs : list widgets) : option (list chat) :=
  fold_left (fun state w => Some (main w state)) runs None.

(** Lines 374-378: the expanders of the history. *)
Inductive icon : Type := Speech_balloon | Microphone.

(** [l[-n:]] *)
Definition last_n {A : Type} (n : nat) (l : list A) : list A :=
  skipn (List.length l - n) l.

(** [enumerate(l)] *)
Definition enumerate {A : Type} (l : list A) : list (nat * A) :=
  combine (seq 0 (List.length l)) l.

(** The icon, the number in the label and the entry of each expander, from
    top to bottom. *)
Definition history_expanders (chat_history : list chat) : list (icon * nat * chat) :=
  List.map
    (fun '(i, chat) =>
       (if String.eqb (type chat) "text" then Speech_balloon else Microphone,
        List.length chat_history - i,
        chat))
    (enumerate (rev (last_n 5 chat_history))).

(** What every entry of a history made by [main] satisfies. *)
Definition recorded_answer (sentences : list string) (entry : chat) : Prop :=
  (type entry = "text" \/ type entry = "voice") /\
  question entry <> EmptyString /\
  response entry = chatbot (question entry) sentences (type entry).

(** Whether two outcomes of the recognition are of the same kind: both a
    text, or both an exception of the same class. *)
Definition same_kind (a b : recognition) : bool :=
  match a, b with
  | Recognized _, Recognized _ => true
  | WaitTimeoutError, WaitTimeoutError => true
  | UnknownValueError, UnknownValueError => true
  | RequestError _, RequestError _ => true
  | OSError _, OSError _ => true
  | Exception _, Exception _ => true
  | _, _ => false
  end.

(** The history a session state stands for. *)
Definition history_of (session_state : option (list chat)) : list chat :=
  match session_state with Some h => h | None => [] end.

(** The number of periods of a text. *)
Fixpoint count_periods (s : string) : nat :=
  match s with
  | EmptyString => 0
  | String c s' => (if Ascii.eqb "." c then 1 else 0) + count_periods s'
  end.

(* ================================================================== *)
(** ** Facts about the built-ins *)

Section StrFacts.

Variable p : ascii -> bool.

Lemma all_filter (s : string) : Str.all p (Str.filter p s) = true.
Proof.
  induction s as [|c s IH]; simpl; [reflexivity|].
  destruct (p c) eqn:Hc; simpl; [rewrite Hc|]; exact IH.
Qed.

Lemma map_fixes (f : ascii -> ascii) (s : string) :
  (forall c, p c = true -> f c = c) -> Str.all p s = true -> Str.map f s = s.
Proof.
  intros Hf. induction s as [|c s IH]; simpl; [reflexivity|].
  intros H. apply andb_true_iff in H as [Hc Hs].
  rewrite (Hf _ Hc), (IH Hs). reflexivity.
Qed.

Lemma all_weaken (q : ascii -> bool) (s : string) :
  (forall c, p c = true -> q c = true) -> Str.all p s = true -> Str.all q s = true.
Proof.
  intros Hpq. induction s as [|c s IH]; simpl; [reflexivity|].
  intros H. apply andb_true_iff in H as [Hc Hs].
  rewrite (Hpq _ Hc), (IH Hs). reflexivity.
Qed.

End StrFacts.

Lemma lstrip_all_space (s : string) :
  Str.all Char.isspace (Str.lstrip s) = Str.all Char.isspace s.
Proof.
  induction s as [|c s IH]; simpl; [reflexivity|].
  destruct (Char.isspace c) eqn:Hc; simpl; [exact IH | rewrite Hc; reflexivity].
Qed.

Lemma rstrip_empty (s : string) :
  Str.is_empty (Str.rstrip s) = Str.all Char.isspace s.
Proof.
  induction s as [|c s IH]; simpl; [reflexivity|].
  destruct (Str.rstrip s) as [|d r]; simpl in *.
  - rewrite <- IH, andb_true_r. destruct (Char.isspace c); reflexivity.
  - rewrite <- IH, andb_false_r. reflexivity.
Qed.

Lemma is_empty_eqb (s : string) : String.eqb s EmptyString = Str.is_empty s.
Proof. destruct s; reflexivity. Qed.

(** The guard of [chatbot] is the test "empty or only white space". *)
Lemma no_question_blank (user_input : string) :
  no_question user_input = blank user_input.
Proof.
  unfold no_question, blank, Str.strip.
  rewrite is_empty_eqb, rstrip_empty, lstrip_all_space.
  destruct user_input; reflexivity.
Qed.

Lemma kept_not_upper (c : ascii) : Char.kept c = true -> Char.isupper c = false.
Proof.
  destruct c as [[] [] [] [] [] [] [] []]; vm_compute; intros H;
    first [reflexivity | discriminate H].
Qed.

Lemma lower_of_kept (s : string) : Str.all Char.kept s = true -> Str.lower s = s.
Proof.
  apply map_fixes. intros c Hc. unfold Char.lower.
  rewrite (kept_not_upper _ Hc). reflexivity.
Qed.

Lemma mem_In (w : string) (ws : list string) : Str.mem w ws = true <-> In w ws.
Proof.
  unfold Str.mem. rewrite existsb_exists. split.
  - intros (x & Hx & E). apply String.eqb_eq in E. subst x. exact Hx.
  - intros H. exists w. split; [exact H | apply String.eqb_refl].
Qed.

Lemma all_both (p q : ascii -> bool) (s : string) :
  Str.all p s = true -> Str.all q s = true -> Str.all (fun c => p c && q c) s = true.
Proof.
  induction s as [|c s IH]; simpl; [reflexivity|].
  intros Hp Hq. apply andb_true_iff in Hp as [Hpc Hps].
  apply andb_true_iff in Hq as [Hqc Hqs].
  rewrite Hpc, Hqc, (IH Hps Hqs). reflexivity.
Qed.

(** The pieces of a string have its characters, and none of the
    delimiters. *)
Lemma pieces_all (p delim : ascii -> bool) (s : string) :
  Str.all p s = true -> Forall (fun w => Str.all p w = true) (Str.pieces delim s).
Proof.
  induction s as [|c s IH]; simpl; intros H.
  - repeat constructor.
  - apply andb_true_iff in H as [Hc Hs]. specialize (IH Hs).
    destruct (delim c); [constructor; [reflexivity | exact IH]|].
    destruct (Str.pieces delim s) as [|w ws].
    + repeat constructor. simpl. rewrite Hc. reflexivity.
    + inversion IH as [|? ? Hw Hws]; subst. constructor; [|exact Hws].
      simpl. rewrite Hc, Hw. reflexivity.
Qed.

Lemma pieces_no_delim (delim : ascii -> bool) (s : string) :
  Forall (fun w => Str.all (fun c => negb (delim c)) w = true) (Str.pieces delim s).
Proof.
  induction s as [|c s IH]; simpl.
  - repeat constructor.
  - destruct (delim c) eqn:Hc; [constructor; [reflexivity | exact IH]|].
    destruct (Str.pieces delim s) as [|w ws].
    + repeat constructor. simpl. rewrite Hc. reflexivity.
    + inversion IH as [|? ? Hw Hws]; subst. constructor; [|exact Hws].
      simpl. rewrite Hc, Hw. reflexivity.
Qed.

(** The words of a query are tokens of lowercase letters and digits. *)
Lemma query_words_tokens (query : string) :
  Forall (fun t => spec_token t = true) (query_words query).
Proof.
  apply Forall_forall. intros t Hin. unfold query_words, Str.split in Hin.
  apply filter_In in Hin as [Hin Hne].
  pose proof (pieces_all Char.kept Char.isspace _ (all_filter Char.kept (Str.lower query)))
    as Hkept.
  pose proof (pieces_no_delim Char.isspace (Str.re_sub_special (Str.lower query))) as Hsp.
  rewrite Forall_forall in Hkept, Hsp.
  unfold spec_token. rewrite Hne. simpl.
  apply (all_weaken (fun c => Char.kept c && negb (Char.isspace c))).
  - intros c. unfold Char.kept.
    destruct (Char.islower c), (Char.isdigit c), (Char.isspace c); simpl; auto.
  - apply all_both; [apply Hkept | apply Hsp]; exact Hin.
Qed.

(* ================================================================== *)
(** ** What [preprocess] returns *)

Lemma clean_sentences_kept (segments : list string) (s : string) :
  In s (clean_sentences segments) -> Str.all Char.kept s = true.
Proof.
  induction segments as [|seg rest IH]; simpl; [intros []|].
  destruct (Str.is_empty (Str.strip seg)); simpl; [exact IH|].
  intros [<- | H]; [apply all_filter | exact (IH H)].
Qed.

(* ================================================================== *)
(** ** Counting matches *)

Lemma count_matches_from (sentence_words query_words : list string) (n : nat) :
  fold_left
    (fun matches word => if Str.mem word sentence_words then S matches else matches)
    query_words n
  = n + List.length (List.filter (fun w => Str.mem w sentence_words) query_words).
Proof.
  revert n. induction query_words as [|w ws IH]; intros n; simpl; [lia|].
  rewrite IH. destruct (Str.mem w sentence_words); simpl; lia.
Qed.

Lemma count_matches_filter (query_words sentence_words : list string) :
  count_matches query_words sentence_words
  = List.length (List.filter (fun w => Str.mem w sentence_words) query_words).
Proof. unfold count_matches. rewrite count_matches_from. reflexivity. Qed.

Lemma count_matches_spec (tokens : list string) (sentence : string) :
  count_matches tokens (Str.split sentence) = spec_match_counter tokens sentence.
Proof.
  rewrite count_matches_filter. unfold spec_match_counter. f_equal.
  apply filter_ext. intros w.
  destruct (in_dec string_dec w (Str.split sentence)) as [Hin | Hout].
  - apply mem_In. exact Hin.
  - apply not_true_is_false. intros H. apply Hout, mem_In, H.
Qed.

Lemma count_matches_le (query_words sentence_words : list string) :
  count_matches query_words sentence_words <= List.length query_words.
Proof. rewrite count_matches_filter. apply filter_length_le. Qed.

Lemma count_matches_no_words (query_words : list string) :
  count_matches query_words [] = 0.
Proof.
  rewrite count_matches_filter. induction query_words; simpl; auto.
Qed.

Lemma spec_match_counter_repeat (t : string) (k : nat) (sentence : string) :
  In t (Str.split sentence) -> spec_match_counter (repeat t k) sentence = k.
Proof.
  intros Hin. unfold spec_match_counter.
  induction k as [|k IH]; simpl; [reflexivity|].
  destruct (in_dec string_dec t (Str.split sentence)); [simpl; f_equal; exact IH | contradiction].
Qed.

(* ================================================================== *)
(** ** Scores *)

Lemma pos_of_length (n : nat) : n <> 0 -> Z.pos (Pos.of_nat n) = Z.of_nat n.
Proof.
  intros Hn. rewrite <- positive_nat_Z, Nat2Pos.id by exact Hn. reflexivity.
Qed.

Lemma Qgt_bool_lt (x y : Q) : Qgt_bool x y = true <-> (y < x)%Q.
Proof.
  unfold Qgt_bool. rewrite negb_true_iff. split.
  - intros H. apply Qnot_le_lt. intros Hle.
    apply Qle_bool_iff in Hle. congruence.
  - intros H. apply not_true_is_false. intros Hle.
    apply Qle_bool_iff in Hle. exact (Qlt_not_le _ _ H Hle).
Qed.

Lemma Qgt_bool_le (x y : Q) : Qgt_bool x y = false <-> (x <= y)%Q.
Proof.
  unfold Qgt_bool. rewrite negb_false_iff. apply Qle_bool_iff.
Qed.

Lemma sentence_score_spec (tokens : list string) (sentence : string) :
  sentence_score tokens sentence = spec_score tokens sentence.
Proof.
  unfold sentence_score, spec_score. rewrite count_matches_spec.
  destruct tokens; reflexivity.
Qed.

Lemma sentence_score_no_tokens (sentence : string) :
  sentence_score [] sentence = 0%Q.
Proof. reflexivity. Qed.

Lemma sentence_score_range (query_words : list string) (sentence : string) :
  (0 <= sentence_score query_words sentence <= 1)%Q.
Proof.
  unfold sentence_score.
  pose proof (count_matches_le query_words (Str.split sentence)) as Hle.
  destruct (Nat.ltb_spec 0 (List.length query_words)) as [Hpos | Hzero].
  - unfold Qle; simpl. rewrite pos_of_length by lia. split; lia.
  - split; discriminate.
Qed.

Lemma sentence_score_empty_sentence (query_words : list string) :
  (sentence_score query_words EmptyString == 0)%Q.
Proof.
  unfold sentence_score. change (Str.split EmptyString) with (@nil string).
  rewrite count_matches_no_words.
  destruct (Nat.ltb 0 (List.length query_words)); reflexivity.
Qed.

(* ================================================================== *)
(** ** The loop of [get_most_relevant_sentence] *)

(** What the loop has done when it leaves [sentences] with the pair
    [(b, r)], started from [(b0, r0)]: either no sentence scored above [r0]
    and the pair is untouched, or [b] is the first sentence of the largest
    score, which is [r]. *)
Lemma keep_best_loop (tokens : list string) (sentences : list string) :
  forall b0 r0 b r,
    fold_left (keep_best tokens) sentences (b0, r0) = (b, r) ->
    (b = b0 /\ r = r0 /\ forall s, In s sentences -> (sentence_score tokens s <= r0)%Q)
    \/ (r = sentence_score tokens b /\ (r0 < r)%Q /\ earliest_with tokens sentences b r).
Proof.
  induction sentences as [|s rest IH]; intros b0 r0 b r H; simpl in H.
  - injection H as <- <-. left. repeat split. intros s [].
  - destruct (Qgt_bool (sentence_score tokens s) r0) eqn:Hgt.
    + apply Qgt_bool_lt in Hgt.
      destruct (IH _ _ _ _ H) as [(-> & -> & Hall) | (Hr & Hlt & pre & post & Hc & Hpre & Hpost)].
      * right. split; [reflexivity|]. split; [exact Hgt|].
        exists [], rest. split; [reflexivity|]. split; [intros x []| exact Hall].
      * right. split; [exact Hr|]. split; [exact (Qlt_trans _ _ _ Hgt Hlt)|].
        exists (s :: pre), post. split; [simpl; f_equal; exact Hc|].
        split; [|exact Hpost].
        intros x [<- | Hx]; [exact Hlt | exact (Hpre x Hx)].
    + apply Qgt_bool_le in Hgt.
      destruct (IH _ _ _ _ H) as [(-> & -> & Hall) | (Hr & Hlt & pre & post & Hc & Hpre & Hpost)].
      * left. repeat split. intros x [<- | Hx]; [exact Hgt | exact (Hall x Hx)].
      * right. split; [exact Hr|]. split; [exact Hlt|].
        exists (s :: pre), post. split; [simpl; f_equal; exact Hc|].
        split; [|exact Hpost].
        intros x [<- | Hx]; [exact (Qle_lt_trans _ _ _ Hgt Hlt) | exact (Hpre x Hx)].
Qed.

(** The same for the whole function. *)
Lemma matcher_cases (query : string) (sentences : list string) :
  let tokens := query_words query in
  let best := fst (get_most_relevant_sentence query sentences) in
  let score := snd (get_most_relevant_sentence query sentences) in
  (best = EmptyString /\ score = 0%Q /\
   forall s, In s sentences -> (sentence_score tokens s == 0)%Q)
  \/ (score = sentence_score tokens best /\ (0 < score)%Q /\
      earliest_with tokens sentences best score).
Proof.
  intros tokens best score. subst best score. unfold get_most_relevant_sentence.
  fold tokens.
  destruct (fold_left (keep_best tokens) sentences (EmptyString, 0%Q)) as [b r] eqn:E.
  simpl. destruct (keep_best_loop _ _ _ _ _ _ E) as [(-> & -> & Hall) | H].
  - left. repeat split. intros s Hs. apply Qle_antisym; [exact (Hall s Hs)|].
    apply sentence_score_range.
  - right. exact H.
Qed.

Lemma earliest_with_In (tokens : list string) (sentences : list string) (b : string) (r : Q) :
  earliest_with tokens sentences b r -> In b sentences.
Proof.
  intros (pre & post & -> & _). apply in_or_app. right. left. reflexivity.
Qed.

Lemma earliest_with_bound (tokens : list string) (sentences : list string) (b : string) :
  earliest_with tokens sentences b (sentence_score tokens b) ->
  forall s, In s sentences -> (sentence_score tokens s <= sentence_score tokens b)%Q.
Proof.
  intros (pre & post & -> & Hpre & Hpost) s Hs.
  apply in_app_or in Hs as [Hs | [<- | Hs]].
  - apply Qlt_le_weak, Hpre, Hs.
  - apply Qle_refl.
  - apply Hpost, Hs.
Qed.

(* ================================================================== *)
(** ** The effects of a call *)

Lemma run_sentence_score (tokens : list string) (sentence : string) :
  Run.sentence_score tokens sentence = Run.ret (sentence_score tokens sentence).
Proof.
  unfold Run.sentence_score, sentence_score, Run.true_div.
  destruct (List.length tokens); reflexivity.
Qed.

Lemma run_for_sentences (tokens : list string) (sentences : list string) :
  forall best,
    Run.for_sentences tokens sentences best
    = Run.ret (fold_left (keep_best tokens) sentences best).
Proof.
  induction sentences as [|s rest IH]; intros [b r]; simpl; [reflexivity|].
  rewrite run_sentence_score. unfold Run.bind, Run.ret at 1.
  rewrite IH. reflexivity.
Qed.

(** The matcher returns, and its only effect is the record of its call. *)
Lemma run_matcher (query : string) (sentences : list string) :
  Run.get_most_relevant_sentence query sentences
  = (Run.Returns (get_most_relevant_sentence query sentences),
     [Run.Matcher_called query sentences]).
Proof.
  unfold Run.get_most_relevant_sentence, get_most_relevant_sentence.
  rewrite run_for_sentences. reflexivity.
Qed.

(** [chatbot] returns, and calls the matcher once unless there is no
    question. *)
Lemma run_chatbot (user_input : string) (sentences : list string) (input_type : string) :
  Run.chatbot user_input sentences input_type
  = (Run.Returns (chatbot user_input sentences input_type),
     if no_question user_input then []
     else [Run.Matcher_called user_input sentences]).
Proof.
  unfold Run.chatbot, chatbot.
  destruct (no_question user_input); [reflexivity|].
  rewrite run_matcher.
  destruct (get_most_relevant_sentence user_input sentences) as [b r]. simpl.
  destruct (Qgt_bool r threshold); reflexivity.
Qed.

(* ================================================================== *)
(** ** [chatbot] by cases *)

Lemma chatbot_cases (user_input : string) (sentences : list string) (input_type : string) :
  chatbot user_input sentences input_type
  = if blank user_input then prompt_message
    else if Qgt_bool (snd (get_most_relevant_sentence user_input sentences)) threshold
         then (Str.capitalize (fst (get_most_relevant_sentence user_input sentences)) ++ ".")%string
         else fallback_message.
Proof.
  unfold chatbot. rewrite no_question_blank.
  destruct (get_most_relevant_sentence user_input sentences); reflexivity.
Qed.

Lemma threshold_positive : (0 < threshold)%Q.
Proof. reflexivity. Qed.

Lemma above_threshold_In (query : string) (sentences : list string) :
  (threshold < snd (get_most_relevant_sentence query sentences))%Q ->
  In (fst (get_most_relevant_sentence query sentences)) sentences.
Proof.
  intros Hlt.
  destruct (matcher_cases query sentences) as [(_ & E & _) | (_ & _ & Hfirst)].
  - rewrite E in Hlt. discriminate Hlt.
  - exact (earliest_with_In _ _ _ _ Hfirst).
Qed.

Lemma sentence_and_period_nonempty (s : string) : (s ++ ".")%string <> EmptyString.
Proof. destruct s; discriminate. Qed.

Lemma capitalize_of_kept (s : string) :
  Str.all Char.kept s = true -> Str.capitalize s = spec_upper_first s.
Proof.
  destruct s as [|c s]; simpl; [reflexivity|].
  intros H. apply andb_true_iff in H as [_ Hs].
  rewrite (lower_of_kept _ Hs). reflexivity.
Qed.

(* ================================================================== *)
(** ** The claims *)















(** C6. [preprocess "A.B..C."] is the three sentences "a", "b", "c": the
    doubled and the final period add no empty entry. *)
Theorem preprocess_periods_example :
  preprocess "A.B..C." = ["a"; "b"; "c"] /\
  Str.split_on "." (Str.lower "A.B..C.") = ["a"; "b"; ""; "c"; ""].
Proof. split; reflexivity. Qed.




(** C9 as written fails on a corpus that holds the empty string, such as
    the one [preprocess] makes of "!.": for the query "a" the returned
    sentence is the empty string, an element of the corpus, and the score
    is 0. *)
Lemma empty_sentence_in_corpus_scores_zero :
  preprocess "!." = [EmptyString] /\
  get_most_relevant_sentence "a" (preprocess "!.") = (EmptyString, 0%Q) /\
  In (fst (get_most_relevant_sentence "a" (preprocess "!."))) (preprocess "!.") /\
  ~ (0 < snd (get_most_relevant_sentence "a" (preprocess "!.")))%Q.
Proof.
  repeat split; try reflexivity.
  - left. reflexivity.
  - vm_compute. discriminate.
Qed.

(** C9, amended.  The score [get_most_relevant_sentence] returns is a
    rational in [0, 1]; it is strictly positive if and only if the returned
    sentence is a non-empty element of the corpus; and when the score is 0
    the returned sentence is the empty string. *)
Theorem score_range_and_best_sentence (query : string) (sentences : list string) :
  let best := fst (get_most_relevant_sentence query sentences) in
  let score := snd (get_most_relevant_sentence query sentences) in
  (0 <= score <= 1)%Q /\
  ((0 < score)%Q <-> In best sentences /\ best <> EmptyString) /\
  ((score == 0)%Q -> best = EmptyString).
Proof.
  cbv zeta.
  destruct (matcher_cases query sentences) as [(Eb & Er & _) | (E & Hpos & Hfirst)].
  - rewrite Eb, Er. split; [split; discriminate|]. split; [|reflexivity].
    split; [intros H; discriminate H | intros [_ H]; contradiction].
  - split; [rewrite E; apply sentence_score_range|]. split.
    + split; [|intros _; exact Hpos].
      intros _. split; [exact (earliest_with_In _ _ _ _ Hfirst)|].
      intros Hempty. rewrite E, Hempty, sentence_score_empty_sentence in Hpos.
      discriminate Hpos.
    + intros Hzero. rewrite Hzero in Hpos. discriminate Hpos.
Qed.

(** C9, amended, on an instance with a positive score. *)
Lemma score_range_and_best_sentence_witness :
  (0 < snd (get_most_relevant_sentence "the sun" ["mars is red"; "the sun is a star"]))%Q /\
  In (fst (get_most_relevant_sentence "the sun" ["mars is red"; "the sun is a star"]))
     ["mars is red"; "the sun is a star"] /\
  fst (get_most_relevant_sentence "the sun" ["mars is red"; "the sun is a star"]) <> EmptyString.
Proof.
  split; [reflexivity|].
  apply (proj1 (proj2 (score_range_and_best_sentence "the sun" ["mars is red"; "the sun is a star"]))).
  reflexivity.
Defined.



(* ================================================================== *)
(** ** The knowledge base of the program *)

(** The thirty sentences of [SPACE_TEXT] satisfy the corpus invariant in
    full: none is empty, and each has only [a-z0-9] and single spaces. *)
Lemma knowledge_base_clean :
  List.length (preprocess SPACE_TEXT) = 30 /\
  forallb spec_clean_sentence (preprocess SPACE_TEXT) = true.
Proof. split; vm_compute; reflexivity. Qed.

(** The check for an empty sentence comes before the special characters
    are removed: a segment of punctuation alone leaves an empty string in
    the list. *)
Example preprocess_punctuation_only : preprocess "Wow. !!! . x" = ["wow"; ""; "x"].
Proof. reflexivity. Qed.

Example preprocess_apostrophe :
  preprocess "Hello, World!  It's 9 o'clock. " = ["hello world  its 9 oclock"].
Proof. reflexivity. Qed.

Example split_words : Str.split "  what   is mars " = ["what"; "is"; "mars"].
Proof. reflexivity. Qed.

Example strip_both_ends : Str.strip "  a b  " = "a b".
Proof. reflexivity. Qed.

Example capitalize_mixed_case : Str.capitalize "mars IS red" = "Mars is red".
Proof. reflexivity. Qed.

Example armstrong_by_voice :
  chatbot "Who was Neil Armstrong?" (preprocess SPACE_TEXT) "voice"
  = "Neil armstrong was the first person to walk on the moon in 1969.".
Proof. vm_compute. reflexivity. Qed.

Example pizza_best_guess :
  get_most_relevant_sentence "Tell me about pizza and pasta" (preprocess SPACE_TEXT)
  = ("the moon orbits around earth and takes about 27 days to complete one orbit", (2 # 6)%Q).
Proof. vm_compute. reflexivity. Qed.

(* ================================================================== *)
(** ** More about [preprocess] *)

Lemma map_app (f : ascii -> ascii) (a b : string) :
  Str.map f (a ++ b)%string = (Str.map f a ++ Str.map f b)%string.
Proof.
  induction a as [|c a IH]; simpl; [reflexivity | rewrite IH; reflexivity].
Qed.

Lemma all_map (p : ascii -> bool) (f : ascii -> ascii) (s : string) :
  (forall c, p (f c) = p c) -> Str.all p (Str.map f s) = Str.all p s.
Proof.
  intros Hf. induction s as [|c s IH]; simpl; [reflexivity|].
  rewrite Hf, IH. reflexivity.
Qed.

Lemma all_after_map (p : ascii -> bool) (f : ascii -> ascii) (s : string) :
  Str.all p (Str.map f s) = Str.all (fun c => p (f c)) s.
Proof.
  induction s as [|c s IH]; simpl; [reflexivity | rewrite IH; reflexivity].
Qed.

Lemma lower_keeps_period (c : ascii) : Ascii.eqb "." (Char.lower c) = Ascii.eqb "." c.
Proof. destruct c as [[] [] [] [] [] [] [] []]; reflexivity. Qed.

Lemma lower_keeps_space (c : ascii) : Char.isspace (Char.lower c) = Char.isspace c.
Proof. destruct c as [[] [] [] [] [] [] [] []]; reflexivity. Qed.

Lemma pieces_not_nil (delim : ascii -> bool) (s : string) : Str.pieces delim s <> [].
Proof.
  destruct s as [|c s]; simpl; [discriminate|].
  destruct (delim c); [discriminate|].
  destruct (Str.pieces delim s); discriminate.
Qed.

Lemma pieces_app (delim : ascii -> bool) (a b : string) (c : ascii) :
  delim c = true ->
  Str.pieces delim (a ++ String c b)%string = Str.pieces delim a ++ Str.pieces delim b.
Proof.
  intros Hc. induction a as [|x a IH]; simpl.
  - rewrite Hc. reflexivity.
  - rewrite IH. destruct (delim x); [reflexivity|].
    pose proof (pieces_not_nil delim a) as Hne.
    destruct (Str.pieces delim a); [contradiction | reflexivity].
Qed.

Lemma pieces_without_delim (delim : ascii -> bool) (s : string) :
  Str.all (fun c => negb (delim c)) s = true -> Str.pieces delim s = [s].
Proof.
  induction s as [|c s IH]; simpl; [reflexivity|].
  intros H. apply andb_true_iff in H as [Hc Hs].
  apply negb_true_iff in Hc. rewrite Hc, (IH Hs). reflexivity.
Qed.

Lemma pieces_length (s : string) :
  List.length (Str.split_on "." s) = S (count_periods s).
Proof.
  unfold Str.split_on. induction s as [|c s IH]; [reflexivity|].
  cbn [Str.pieces count_periods].
  destruct (Ascii.eqb "." c); [cbn [List.length]; rewrite IH; reflexivity|].
  pose proof (pieces_not_nil (Ascii.eqb ".") s) as Hne.
  destruct (Str.pieces (Ascii.eqb ".") s); [contradiction | exact IH].
Qed.

Lemma count_periods_lower (s : string) : count_periods (Str.lower s) = count_periods s.
Proof.
  induction s as [|c s IH]; [reflexivity|].
  unfold Str.lower in *. cbn [Str.map count_periods].
  rewrite lower_keeps_period, IH. reflexivity.
Qed.

Lemma clean_sentences_app (l l' : list string) :
  clean_sentences (l ++ l') = clean_sentences l ++ clean_sentences l'.
Proof.
  induction l as [|s l IH]; simpl; [reflexivity|].
  destruct (Str.is_empty (Str.strip s)); simpl; rewrite IH; reflexivity.
Qed.

Lemma clean_sentences_length (l : list string) :
  List.length (clean_sentences l) <= List.length l.
Proof.
  induction l as [|s l IH]; simpl; [lia|].
  destruct (Str.is_empty (Str.strip s)); simpl; lia.
Qed.

Lemma strip_empty (s : string) : Str.is_empty (Str.strip s) = blank s.
Proof. unfold Str.strip, blank. rewrite rstrip_empty, lstrip_all_space. reflexivity. Qed.

Lemma clean_sentences_nil (l : list string) :
  clean_sentences l = [] <-> Forall (fun s => blank s = true) l.
Proof.
  induction l as [|s l IH]; simpl; [split; [constructor | reflexivity]|].
  rewrite strip_empty. destruct (blank s) eqn:Hs; simpl.
  - rewrite IH. split; [intros H; constructor; assumption|].
    intros H. inversion H; assumption.
  - split; [discriminate|]. intros H. inversion H; congruence.
Qed.

(** The segments between periods are all blank exactly when the text has
    nothing but white space and periods. *)
Lemma segments_blank (s : string) :
  Forall (fun w => blank w = true) (Str.split_on "." s)
  <-> Str.all (fun c => Char.isspace c || Ascii.eqb "." c) s = true.
Proof.
  unfold Str.split_on, blank. induction s as [|c s IH].
  - split; [reflexivity | repeat constructor].
  - cbn [Str.pieces Str.all]. destruct (Ascii.eqb "." c) eqn:Hc.
    + rewrite orb_true_r. cbn [andb]. rewrite <- IH. split.
      * intros H. inversion H; assumption.
      * intros H. constructor; [reflexivity | exact H].
    + rewrite orb_false_r.
      pose proof (pieces_not_nil (Ascii.eqb ".") s) as Hne.
      destruct (Str.pieces (Ascii.eqb ".") s) as [|w ws]; [contradiction|].
      rewrite andb_true_iff, <- IH. split.
      * intros H. inversion H as [|? ? Hw Hws]; subst. cbn [Str.all] in Hw.
        apply andb_true_iff in Hw as [Hcs Hw].
        split; [exact Hcs | constructor; assumption].
      * intros [Hcs H]. inversion H as [|? ? Hw Hws]; subst.
        constructor; [cbn [Str.all]; rewrite Hcs, Hw; reflexivity | exact Hws].
Qed.

Lemma lstrip_without_space (s : string) :
  Str.all (fun c => negb (Char.isspace c)) s = true -> Str.lstrip s = s.
Proof.
  destruct s as [|c s]; simpl; [reflexivity|].
  intros H. apply andb_true_iff in H as [Hc _].
  apply negb_true_iff in Hc. rewrite Hc. reflexivity.
Qed.

Lemma rstrip_without_space (s : string) :
  Str.all (fun c => negb (Char.isspace c)) s = true -> Str.rstrip s = s.
Proof.
  induction s as [|c s IH]; simpl; [reflexivity|].
  intros H. apply andb_true_iff in H as [Hc Hs].
  apply negb_true_iff in Hc. rewrite (IH Hs), Hc. destruct s; reflexivity.
Qed.

Lemma filter_nothing (p : ascii -> bool) (s : string) :
  Str.all (fun c => negb (p c)) s = true -> Str.filter p s = EmptyString.
Proof.
  induction s as [|c s IH]; simpl; [reflexivity|].
  intros H. apply andb_true_iff in H as [Hc Hs].
  apply negb_true_iff in Hc. rewrite Hc. exact (IH Hs).
Qed.

(** X1. The sentences of two texts joined by a period are the sentences of
    the first followed by the sentences of the second. *)
Theorem preprocess_joined_texts (a b : string) :
  preprocess (a ++ "." ++ b)%string = preprocess a ++ preprocess b.
Proof.
  unfold preprocess, Str.lower, Str.split_on. rewrite map_app. simpl Str.map.
  change (Char.lower ".") with "."%char.
  rewrite pieces_app by reflexivity. apply clean_sentences_app.
Qed.


(** X3. [preprocess] returns at most one sentence more than the text has
    periods. *)
Theorem preprocess_length_bound (text : string) :
  List.length (preprocess text) <= S (count_periods text).
Proof.
  unfold preprocess.
  rewrite <- count_periods_lower, <- pieces_length. apply clean_sentences_length.
Qed.



(* ================================================================== *)
(** ** More about the matcher and the answer *)

Lemma blank_lower (s : string) : blank (Str.lower s) = blank s.
Proof. unfold blank, Str.lower. apply all_map, lower_keeps_space. Qed.

Lemma keep_best_ext (tokens tokens' : list string) (sentences : list string) :
  (forall s, sentence_score tokens s = sentence_score tokens' s) ->
  forall best,
    fold_left (keep_best tokens) sentences best
    = fold_left (keep_best tokens') sentences best.
Proof.
  intros Hext. induction sentences as [|s rest IH]; intros [b r]; simpl; [reflexivity|].
  rewrite Hext. apply IH.
Qed.

Lemma keep_best_stays (tokens : list string) (sentences : list string) (b : string) (r : Q) :
  (forall s, In s sentences -> (sentence_score tokens s <= r)%Q) ->
  fold_left (keep_best tokens) sentences (b, r) = (b, r).
Proof.
  induction sentences as [|s rest IH]; intros Hall; simpl; [reflexivity|].
  assert (Hs : Qgt_bool (sentence_score tokens s) r = false).
  { apply Qgt_bool_le, Hall. left. reflexivity. }
  rewrite Hs. apply IH. intros x Hx. apply Hall. right. exact Hx.
Qed.

Lemma keep_best_grows (tokens : list string) (sentences : list string) (b : string) (r : Q) :
  (r <= snd (fold_left (keep_best tokens) sentences (b, r)))%Q.
Proof.
  destruct (fold_left (keep_best tokens) sentences (b, r)) as [b' r'] eqn:E.
  destruct (keep_best_loop _ _ _ _ _ _ E) as [(_ & -> & _) | (_ & Hlt & _)]; simpl.
  - apply Qle_refl.
  - apply Qlt_le_weak, Hlt.
Qed.

Lemma matcher_score_upper_bound (query : string) (sentences : list string) (s : string) :
  In s sentences ->
  (sentence_score (query_words query) s
   <= snd (get_most_relevant_sentence query sentences))%Q.
Proof.
  intros Hs.
  destruct (matcher_cases query sentences) as [(_ & E & Hall) | (E & _ & Hfirst)].
  - rewrite E. apply Qle_lteq. right. exact (Hall s Hs).
  - rewrite E. rewrite E in Hfirst. exact (earliest_with_bound _ _ _ Hfirst s Hs).
Qed.

Lemma filter_length_perm (f : string -> bool) (l l' : list string) :
  Permutation l l' -> List.length (List.filter f l) = List.length (List.filter f l').
Proof.
  induction 1 as [|x l l' _ IH|x y l|l l' l'' _ IH1 _ IH2]; simpl.
  - reflexivity.
  - destruct (f x); simpl; rewrite IH; reflexivity.
  - destruct (f x), (f y); reflexivity.
  - rewrite IH1. exact IH2.
Qed.

(** The score above the threshold, in whole numbers: more than a fifth of
    the words of the query are in the sentence. *)
Lemma sentence_score_above_threshold (tokens : list string) (sentence : string) :
  Qgt_bool (sentence_score tokens sentence) threshold
  = Nat.ltb (List.length tokens) (5 * count_matches tokens (Str.split sentence)).
Proof.
  unfold sentence_score.
  pose proof (count_matches_le tokens (Str.split sentence)) as Hle.
  destruct (Nat.ltb_spec 0 (List.length tokens)) as [Hpos | Hzero].
  - destruct (Nat.ltb_spec (List.length tokens) (5 * count_matches tokens (Str.split sentence)))
      as [Hlt | Hge].
    + apply Qgt_bool_lt. unfold Qlt, threshold. simpl Qnum. simpl Qden.
      rewrite pos_of_length by lia. lia.
    + apply Qgt_bool_le. unfold Qle, threshold. simpl Qnum. simpl Qden.
      rewrite pos_of_length by lia. lia.
  - replace (count_matches tokens (Str.split sentence)) with 0 by lia.
    replace (List.length tokens) with 0 by lia. reflexivity.
Qed.









(** X9. Adding sentences at the end of the corpus never lowers the score
    the matcher returns, so a question that was above the threshold stays
    above it. *)
Theorem appended_sentences_never_lower_score
  (query : string) (sentences added : list string) :
  (snd (get_most_relevant_sentence query sentences)
   <= snd (get_most_relevant_sentence query (sentences ++ added)))%Q /\
  (Qgt_bool (snd (get_most_relevant_sentence query sentences)) threshold = true ->
   Qgt_bool (snd (get_most_relevant_sentence query (sentences ++ added))) threshold = true).
Proof.
  assert (H : (snd (get_most_relevant_sentence query sentences)
               <= snd (get_most_relevant_sentence query (sentences ++ added)))%Q).
  { unfold get_most_relevant_sentence. rewrite fold_left_app.
    destruct (fold_left (keep_best (query_words query)) sentences (EmptyString, 0%Q))
      as [b r].
    simpl. apply keep_best_grows. }
  split; [exact H|].
  intros Hgt. apply Qgt_bool_lt. apply Qgt_bool_lt in Hgt.
  exact (Qlt_le_trans _ _ _ Hgt H).
Qed.





(* ================================================================== *)
(** ** [transcribe_speech] *)

(** X12. [transcribe_speech] returns either the recognized text and no
    error, or no text and an error message, never both and never neither;
    the message is not empty, so the test [if error] of the caller sees
    every failure. *)
Theorem transcription_text_or_error (outcome : recognition) :
  (exists text,
      outcome = Recognized text /\
      transcribe_speech outcome = (Some text, None)) \/
  (exists message,
      (forall text, outcome <> Recognized text) /\
      transcribe_speech outcome = (None, Some message) /\
      truthy (Some message) = true).
Proof.
  destruct outcome as [text | | | e | e | e]; simpl.
  - left. exists text. split; reflexivity.
  - right. eexists. repeat split. discriminate.
  - right. eexists. repeat split. discriminate.
  - right. eexists. repeat split. discriminate.
  - right. eexists. repeat split. discriminate.
  - right. eexists. repeat split. discriminate.
Qed.

(** X13. The error message tells the kind of failure: two outcomes with
    the same message are of the same kind, whatever detail the exceptions
    carry. *)
Theorem error_message_tells_kind (a b : recognition) :
  snd (transcribe_speech a) = snd (transcribe_speech b) ->
  same_kind a b = true.
Proof.
  destruct a, b; simpl; intros H; first [reflexivity | discriminate H].
Qed.

(** X13, on two failures of the service. *)
Lemma error_message_tells_kind_witness :
  same_kind (RequestError "no route to host") (RequestError "no route to host") = true.
Proof.
  apply (error_message_tells_kind (RequestError "no route to host")
           (RequestError "no route to host")).
  reflexivity.
Defined.

(* ================================================================== *)
(** ** [main] *)

Lemma enumerate_from (A : Type) (l : list A) :
  forall start i,
    nth_error (combine (seq start (List.length l)) l) i
    = option_map (pair (start + i)) (nth_error l i).
Proof.
  induction l as [|x l IH]; intros start i; simpl.
  - destruct i; reflexivity.
  - destruct i as [|i]; simpl.
    + rewrite Nat.add_0_r. reflexivity.
    + rewrite IH. replace (S start + i) with (start + S i) by lia. reflexivity.
Qed.

Lemma last_n_length (A : Type) (n : nat) (l : list A) :
  List.length (last_n n l) = Nat.min n (List.length l).
Proof. unfold last_n. rewrite length_skipn. lia. Qed.

Lemma recorded_text (sentences : list string) (text_input : string) :
  Str.is_empty text_input = false ->
  recorded_answer sentences
    {| type := "text"; question := text_input;
       response := chatbot text_input sentences "text" |}.
Proof.
  intros Hne. repeat split; simpl; [left; reflexivity|].
  intros ->. discriminate Hne.
Qed.

Lemma recorded_voice (sentences : list string) (text : string) :
  Str.is_empty text = false ->
  recorded_answer sentences
    {| type := "voice"; question := text; response := chatbot text sentences "voice" |}.
Proof.
  intros Hne. repeat split; simpl; [right; reflexivity|].
  intros ->. discriminate Hne.
Qed.

Lemma handle_text_recorded (w : widgets) (sentences : list string) (h : list chat) :
  Forall (recorded_answer sentences) h ->
  Forall (recorded_answer sentences) (handle_text w sentences h).
Proof.
  intros Hh. unfold handle_text.
  destruct (text_button w); [|exact Hh].
  destruct (Str.is_empty (text_input w)) eqn:He; simpl; [exact Hh|].
  apply Forall_app. split; [exact Hh|].
  constructor; [apply recorded_text, He | constructor].
Qed.

(** The voice handler by the outcome of the recognition. *)
Lemma handle_voice_cases (w : widgets) (sentences : list string) (h : list chat) :
  handle_voice w sentences h
  = if voice_button w then
      match heard w with
      | Recognized text =>
          if Str.is_empty text then h
          else h ++ [{| type := "voice"; question := text;
                        response := chatbot text sentences "voice" |}]
      | _ => h
      end
    else h.
Proof.
  unfold handle_voice. destruct (voice_button w); [|reflexivity].
  destruct (heard w) as [text | | | e | e | e]; simpl; try reflexivity.
  destruct (Str.is_empty text); reflexivity.
Qed.

Lemma handle_voice_recorded (w : widgets) (sentences : list string) (h : list chat) :
  Forall (recorded_answer sentences) h ->
  Forall (recorded_answer sentences) (handle_voice w sentences h).
Proof.
  intros Hh. rewrite handle_voice_cases.
  destruct (voice_button w); [|exact Hh].
  destruct (heard w) as [text | | | e | e | e]; try exact Hh.
  destruct (Str.is_empty text) eqn:He; [exact Hh|].
  apply Forall_app. split; [exact Hh|].
  constructor; [apply recorded_voice, He | constructor].
Qed.

Lemma handle_clear_recorded (w : widgets) (sentences : list string) (h : list chat) :
  Forall (recorded_answer sentences) h ->
  Forall (recorded_answer sentences) (handle_clear w h).
Proof.
  intros Hh. unfold handle_clear. destruct h; [exact Hh|].
  destruct (clear_button w); [constructor | exact Hh].
Qed.

Lemma main_recorded (w : widgets) (session_state : option (list chat)) :
  Forall (recorded_answer (preprocess SPACE_TEXT)) (history_of session_state) ->
  Forall (recorded_answer (preprocess SPACE_TEXT)) (main w session_state).
Proof.
  intros Hh. unfold main.
  apply handle_clear_recorded, handle_voice_recorded, handle_text_recorded.
  exact Hh.
Qed.

(** X14. The history shows its last five entries at most, the latest on
    top, and the number in the label of an entry is its place in the whole
    history, counted from 1: the expander number [i] from the top holds the
    entry at place [len - i] under the label [len - i], with the balloon
    for a typed question and the microphone for a spoken one. *)
Theorem history_shows_last_five (chat_history : list chat) :
  List.length (history_expanders chat_history) = Nat.min 5 (List.length chat_history) /\
  forall i, i < Nat.min 5 (List.length chat_history) ->
    exists entry,
      nth_error chat_history (List.length chat_history - i - 1) = Some entry /\
      nth_error (history_expanders chat_history) i
      = Some (if String.eqb (type entry) "text" then Speech_balloon else Microphone,
              List.length chat_history - i,
              entry).
Proof.
  unfold history_expanders, enumerate. split.
  - rewrite length_map, length_combine, length_seq, length_rev, last_n_length. lia.
  - intros i Hi. rewrite nth_error_map, enumerate_from, nth_error_rev, last_n_length.
    destruct (Nat.ltb_spec i (Nat.min 5 (List.length chat_history))) as [_ | Hge]; [|lia].
    unfold last_n. rewrite nth_error_skipn.
    replace (List.length chat_history - 5 + (Nat.min 5 (List.length chat_history) - S i))
      with (List.length chat_history - i - 1) by lia.
    destruct (nth_error chat_history (List.length chat_history - i - 1)) as [entry|] eqn:E.
    + exists entry. split; reflexivity.
    + apply nth_error_None in E. lia.
Qed.

(** X14, on a history of six entries: the second expander from the top
    holds the fifth entry. *)
Lemma history_shows_last_five_witness :
  exists entry,
    nth_error (List.map (fun q => {| type := "voice"; question := q; response := q |})
                 ["a"; "b"; "c"; "d"; "e"; "f"]) 4 = Some entry /\
    nth_error (history_expanders
                 (List.map (fun q => {| type := "voice"; question := q; response := q |})
                    ["a"; "b"; "c"; "d"; "e"; "f"])) 1
    = Some (if String.eqb (type entry) "text" then Speech_balloon else Microphone, 5, entry).
Proof.
  apply (proj2 (history_shows_last_five
                  (List.map (fun q => {| type := "voice"; question := q; response := q |})
                     ["a"; "b"; "c"; "d"; "e"; "f"])) 1).
  simpl. lia.
Defined.

(** X15. Whatever is typed, spoken and clicked in the runs of a session,
    every entry of the history has the tag "text" or "voice", a question
    that is not empty, and as response the answer of [chatbot] to that
    question on the knowledge base. *)
Theorem session_history_recorded (runs : list widgets) :
  Forall (recorded_answer (preprocess SPACE_TEXT)) (history_of (session runs)).
Proof.
  unfold session.
  assert (H : forall state,
             Forall (recorded_answer (preprocess SPACE_TEXT)) (history_of state) ->
             Forall (recorded_answer (preprocess SPACE_TEXT))
               (history_of (fold_left (fun state w => Some (main w state)) runs state))).
  { induction runs as [|w runs IH]; intros state Hstate; simpl; [exact Hstate|].
    apply IH. simpl. apply main_recorded, Hstate. }
  apply H. constructor.
Qed.

(** X16. A run with the button that clears the history leaves it empty; a
    run without it keeps every earlier entry in place and adds at most one
    entry for the text button and one for the voice button. *)
Theorem main_appends_or_clears (w : widgets) (session_state : option (list chat)) :
  (clear_button w = true -> main w session_state = []) /\
  (clear_button w = false ->
   exists added,
     main w session_state = history_of session_state ++ added /\
     List.length added <= Nat.b2n (text_button w) + Nat.b2n (voice_button w)).
Proof.
  unfold main. fold (history_of session_state).
  set (h := history_of session_state). set (kb := preprocess SPACE_TEXT).
  assert (Hadd : exists added,
             handle_voice w kb (handle_text w kb h) = h ++ added /\
             List.length added <= Nat.b2n (text_button w) + Nat.b2n (voice_button w)).
  { rewrite handle_voice_cases. unfold handle_text.
    destruct (text_button w), (voice_button w); simpl Nat.b2n.
    - destruct (Str.is_empty (text_input w)); simpl;
        destruct (heard w) as [text | | | e | e | e];
        try destruct (Str.is_empty text);
        rewrite <- ?app_assoc;
        first [ eexists; split; [reflexivity | simpl; lia]
              | exists []; split; [rewrite app_nil_r; reflexivity | simpl; lia] ].
    - destruct (Str.is_empty (text_input w)); simpl;
        first [ eexists; split; [reflexivity | simpl; lia]
              | exists []; split; [rewrite app_nil_r; reflexivity | simpl; lia] ].
    - destruct (heard w) as [text | | | e | e | e];
        try destruct (Str.is_empty text);
        first [ eexists; split; [reflexivity | simpl; lia]
              | exists []; split; [rewrite app_nil_r; reflexivity | simpl; lia] ].
    - exists []. split; [rewrite app_nil_r; reflexivity | simpl; lia]. }
  destruct Hadd as (added & E & Hlen). rewrite E. unfold handle_clear. split.
  - intros Hc. rewrite Hc. destruct (h ++ added); reflexivity.
  - intros Hc. rewrite Hc. exists added. split; [|exact Hlen].
    destruct (h ++ added); reflexivity.
Qed.

(** X16, on a run that types a question into a fresh session. *)
Lemma main_appends_or_clears_witness :
  exists added,
    main {| text_input := "What is Mars?"; text_button := true; voice_button := false;
            heard := WaitTimeoutError; clear_button := false |} None
    = history_of None ++ added /\
    List.length added <= 1 + 0.
Proof.
  apply (proj2 (main_appends_or_clears
                  {| text_input := "What is Mars?"; text_button := true;
                     voice_button := false; heard := WaitTimeoutError;
                     clear_button := false |} None)).
  reflexivity.
Defined.



(** X18. With the voice button, a recognition that fails in any way, or
    that returns the empty text, records nothing; a recognized text is
    recorded under the tag "voice" with the response the same text gets
    when it is typed. *)
Theorem spoken_question_recorded
  (w : widgets) (sentences : list string) (chat_history : list chat) :
  voice_button w = true ->
  handle_voice w sentences chat_history
  = match fst (transcribe_speech (heard w)) with
    | Some text =>
        if Str.is_empty text then chat_history
        else chat_history
               ++ [{| type := "voice"; question := text;
                      response := chatbot text sentences "text" |}]
    | None => chat_history
    end.
Proof.
  intros Hb. rewrite handle_voice_cases, Hb.
  destruct (heard w); reflexivity.
Qed.

(** X18, on a microphone that is not there. *)
Lemma spoken_question_recorded_witness :
  handle_voice {| text_input := ""; text_button := false; voice_button := true;
                  heard := OSError "No Default Input Device Available";
                  clear_button := false |}
    ["mars is red"] []
  = [].
Proof.
  apply (spoken_question_recorded
           {| text_input := ""; text_button := false; voice_button := true;
              heard := OSError "No Default Input Device Available";
              clear_button := false |}
           ["mars is red"] [] eq_refl).
Defined.
